(** * arc-electron: the main-process coordinator ([main.js])

    A shallow embedding of class [Arc] of [main.js]: the [open-url]
    protocol handler, the [ready] sequence, the menu-action router and
    the debugger check.  Strings are [string]s of code units, the
    collaborators ([ArcWindowsManager], [ArcMainMenu], [UpdateStatus],
    ...) are opaque: a call on one of them is recorded as an [Event] of
    the run, in program order.  A handler is a computation in a small
    monad that threads the process state, collects the calls and
    completes normally or by throwing. *)

From Stdlib Require Import String Ascii List ZArith Bool Arith Lia.
Import ListNotations.
Open Scope string_scope.

(** ** JavaScript string and array primitives used by [main.js] *)

Module Js.

(** [s.substr(start)] for a non-negative [start]: the text from code
    unit [start] on, empty when [start] is beyond the end. *)
Fixpoint substr (start : nat) (s : string) : string :=
  match start, s with
  | O, _ => s
  | S _, EmptyString => EmptyString
  | S n, String _ s' => substr n s'
  end.

Fixpoint indexOf_from (pos : nat) (needle s : string) : Z :=
  if prefix needle s then Z.of_nat pos
  else match s with
       | EmptyString => (-1)%Z
       | String _ s' => indexOf_from (S pos) needle s'
       end.

(** [s.indexOf(needle)]: position of the first occurrence, [-1] when
    there is none. *)
Definition indexOf (needle s : string) : Z := indexOf_from 0 needle s.

(** [s.split(sep)] for a one-character separator: never empty, the
    empty string splits into one empty segment. *)
Fixpoint split (sep : ascii) (s : string) : list string :=
  match s with
  | EmptyString => [EmptyString]
  | String c s' =>
      if Ascii.eqb c sep then EmptyString :: split sep s'
      else match split sep s' with
           | [] => [String c EmptyString]
           | p :: ps => String c p :: ps
           end
  end.

(** [parts[i]]: [None] stands for [undefined] (index out of range). *)
Definition item (parts : list string) (i : nat) : option string :=
  nth_error parts i.

(** The string a value turns into under [+] with a string operand. *)
Definition toString (v : option string) : string :=
  match v with
  | Some s => s
  | None => "undefined"
  end.

(** [!!v] for a value that is a string or [undefined]. *)
Definition truthy (v : option string) : bool :=
  match v with
  | Some s => negb (s =? "")
  | None => false
  end.

(** [v === s] for a value that is a string or [undefined]. *)
Definition strict_eq (v : option string) (s : string) : bool :=
  match v with
  | Some x => x =? s
  | None => false
  end.

(** [switch]/[case] labels that share one body: strict equality with
    one of the labels. *)
Definition case_of (labels : list string) (v : string) : bool :=
  existsb (String.eqb v) labels.

End Js.

(** ** Values, windows, calls on collaborators *)

(** What a promise can be rejected with, and what is handed to the
    logger: [VErr m] is an [Error] object whose [message] is [m]. *)
Inductive Value : Type :=
| VUndefined
| VNull
| VStr (s : string)
| VErr (message : string).

(** A [BrowserWindow]: its identity and the URL its [webContents] has
    loaded. *)
Record BrowserWindow : Type := mkWindow {
  win_id : nat;
  win_url : string
}.

(** One call made by [main.js] on the host ([app], [process], [log],
    the event object) or on a collaborator.  Handles of search services
    are positions in the registry. *)
Inductive Event : Type :=
| LogInfo (args : list Value)
| LogError (args : list Value)
| AppSetAsDefaultProtocolClient (scheme : string)
| AppOn (name : string)
| AppQuit
| IpcMainOn (channel : string)
| PreventDefault
| New (class : string)
| OptionsParse
| OptionsGetOptions
| MenuOn (name : string)
| MenuBuild
| PrepareEnvironment
| IdentityListen
| WmListen
| PromptsListen
| UsListen
| GdriveListen
| WmOpen (path : option string)
| WmOpenTaskManager
| UsStart
| SmStart
| WebContentsSend (win : nat) (channel payload : string)
| WebContentsGetURL (win : nat)
| HelpWith (action : string)
| SearchGetService (win : nat)
| SearchNew (win : nat)
| SearchIsOpened (srv : nat)
| SearchFocus (srv : nat)
| SearchOpen (srv : nat)
| TestInterface
| ThemesEditorRun (windowId : nat) (data : Value).

(** How a call or a handler completes. *)
Inductive Completion (A : Type) : Type :=
| Normal (a : A)
| Throw (e : Value).
Arguments Normal {A} a.
Arguments Throw {A} e.

(** An instance of [ContentSearchService]: the window it serves and
    whether its bar is open. *)
Record Service : Type := mkService {
  srv_win : nat;
  srv_opened : bool
}.

(** The state of the process that [main.js] reads or writes. *)
Record World : Type := mkWorld {
  argv : list string;                (* process.argv *)
  platform : string;                 (* process.platform *)
  node_env : option string;          (* process.env.NODE_ENV *)
  prepared : Completion unit;        (* how prepareEnvironment() settles *)
  hasWindow : bool;                  (* this.wm.hasWindow *)
  services : list Service;           (* ContentSearchService instances *)
  global_arcApp : bool               (* global.arcApp is set *)
}.

(** ** The monad of handlers *)

Record Run (A : Type) : Type := mkRun {
  outcome : Completion A;
  final : World;
  calls : list Event
}.
Arguments mkRun {A} outcome final calls.
Arguments outcome {A} r.
Arguments final {A} r.
Arguments calls {A} r.

Definition M (A : Type) : Type := World -> Run A.

Definition ret {A : Type} (a : A) : M A :=
  fun w => mkRun (Normal a) w [].

Definition bind {A B : Type} (m : M A) (k : A -> M B) : M B :=
  fun w =>
    let r := m w in
    match outcome r with
    | Normal a =>
        let r' := k a (final r) in
        mkRun (outcome r') (final r') (calls r ++ calls r')
    | Throw e => mkRun (Throw e) (final r) (calls r)
    end.

Definition throw {A : Type} (e : Value) : M A :=
  fun w => mkRun (Throw e) w [].

(** A call on a collaborator that returns nothing of interest. *)
Definition call (e : Event) : M unit :=
  fun w => mkRun (Normal tt) w [e].

Definition get {A : Type} (f : World -> A) : M A :=
  fun w => mkRun (Normal (f w)) w [].

Definition modify (f : World -> World) : M unit :=
  fun w => mkRun (Normal tt) (f w) [].

Declare Scope js_scope.
Delimit Scope js_scope with js.
Notation "x <- m ;; k" := (bind m (fun x => k))
  (at level 100, m at next level, right associativity) : js_scope.
Notation "m ;; k" := (bind m (fun _ => k))
  (at level 100, right associativity) : js_scope.
Open Scope js_scope.

(** [p.catch(h)]: a rejection of [p] is handed to [h]; the result is
    rejected only when [h] throws. *)
Definition promise_catch {A : Type} (p : M A) (h : Value -> M A) : M A :=
  fun w =>
    let r := p w in
    match outcome r with
    | Normal a => r
    | Throw e =>
        let r' := h e (final r) in
        mkRun (outcome r') (final r') (calls r ++ calls r')
    end.

(** [p.then(k)]: [k] runs once [p] is fulfilled; a rejection of [p]
    skips it. *)
Definition promise_then {A B : Type} (p : M A) (k : A -> M B) : M B :=
  bind p k.

(** [cause.message]: reading a property of [undefined] or [null] throws
    a [TypeError]; a string has no such property. *)
Definition message_of (cause : Value) : M Value :=
  match cause with
  | VUndefined | VNull => throw (VErr "TypeError")
  | VStr _ => ret VUndefined
  | VErr m => ret (VStr m)
  end.

(** ** The protocol handler *)

(** The listener that [_registerProtocols] attaches to [open-url]. *)
Definition _registerProtocols_open_url (url : string) : M unit :=
  call (LogInfo [VStr "arc-file protocol handles "; VStr url]) ;;
  call PreventDefault ;;
  let fileData := Js.substr 11 url in
  let parts := Js.split "/" fileData in
  if Js.strict_eq (Js.item parts 0) "drive" then
    call (WmOpen (Some ("/request/drive/" ++ Js.toString (Js.item parts 1)
                          ++ "/" ++ Js.toString (Js.item parts 2))))
  else ret tt.

Definition _registerProtocols : M unit :=
  call (LogInfo [VStr "Registering arc-file protocol"]) ;;
  call (AppSetAsDefaultProtocolClient "arc-file") ;;
  call (AppOn "open-url").

(** ** The debugger check *)

(** [isDebug()]: [!!process.argv.find((i) => i.indexOf('--inspect') !== -1)]. *)
Definition isDebug (w : World) : bool :=
  Js.truthy
    (List.find (fun i => negb (Js.indexOf "--inspect" i =? -1)%Z) (argv w)).

(** ** The ready sequence *)

(** [new AppDefaults().prepareEnvironment()]: the promise settles the
    way the environment decides. *)
Definition prepareEnvironment : M unit :=
  call (New "AppDefaults") ;;
  call PrepareEnvironment ;;
  fun w => mkRun (prepared w) w [].

(** The [.then] callback of [_readyHandler]. *)
Definition _readyHandler_then : M unit :=
  call (LogInfo [VStr "Application is now ready"]) ;;
  call IdentityListen ;;
  call WmListen ;;
  call PromptsListen ;;
  call UsListen ;;
  call GdriveListen ;;
  call (WmOpen None) ;;
  debug <- get isDebug ;;
  (if negb debug then call UsStart else ret tt) ;;
  call MenuBuild ;;
  call SmStart.

(** The [.catch] callback of [_readyHandler]. *)
Definition _readyHandler_catch (cause : Value) : M unit :=
  m <- message_of cause ;;
  call (LogError [VStr "Unable to prepare the environment."; m]) ;;
  call (LogError [cause]).

Definition _readyHandler : M unit :=
  promise_then (promise_catch prepareEnvironment _readyHandler_catch)
               (fun _ => _readyHandler_then).

(** ** Window life cycle *)

Definition _allClosedHandler : M unit :=
  p <- get platform ;;
  if negb (p =? "darwin") then call AppQuit else ret tt.

Definition _activateHandler : M unit :=
  has <- get hasWindow ;;
  if negb has then call (WmOpen None) else ret tt.

(** ** The content search service *)

(** Modelled from the spec: class [ContentSearchService] of
    [scripts/main/search-service], a per-window singleton factory over
    a registry of instances.  [getService(win)] is the first instance
    registered for the window, if any. *)
Fixpoint lookup_service (win : nat) (pos : nat) (l : list Service)
  : option nat :=
  match l with
  | [] => None
  | s :: l' =>
      if Nat.eqb (srv_win s) win then Some pos
      else lookup_service win (S pos) l'
  end.

(** Modelled from the spec: [ContentSearchService.getService(win)]. *)
Definition getService (win : BrowserWindow) : M (option nat) :=
  call (SearchGetService (win_id win)) ;;
  get (fun w => lookup_service (win_id win) 0 (services w)).

(** The registry replaced, the rest of the state kept. *)
Definition set_services (l : list Service) (w : World) : World :=
  mkWorld (argv w) (platform w) (node_env w) (prepared w) (hasWindow w)
          l (global_arcApp w).

(** Modelled from the spec: [new ContentSearchService(win)] registers
    a closed instance for the window and yields its handle. *)
Definition newService (win : BrowserWindow) : M nat :=
  call (SearchNew (win_id win)) ;;
  h <- get (fun w => List.length (services w)) ;;
  modify (fun w =>
    set_services (services w ++ [mkService (win_id win) false]) w) ;;
  ret h.

(** Whether the instance behind a handle is open; a handle that names
    no instance does not arise. *)
Definition is_opened (srv : nat) (l : list Service) : bool :=
  match nth_error l srv with
  | Some s => srv_opened s
  | None => false
  end.

(** Modelled from the spec: [srv.isOpened()]. *)
Definition isOpened (srv : nat) : M bool :=
  call (SearchIsOpened srv) ;;
  get (fun w => is_opened srv (services w)).

Fixpoint mark_opened (srv : nat) (l : list Service) : list Service :=
  match l, srv with
  | [], _ => []
  | s :: l', O => mkService (srv_win s) true :: l'
  | s :: l', S n => s :: mark_opened n l'
  end.

(** Modelled from the spec: [srv.open()] opens the instance's bar. *)
Definition openService (srv : nat) : M unit :=
  call (SearchOpen srv) ;;
  modify (fun w => set_services (mark_opened srv (services w)) w).

(** Modelled from the spec: [srv.focus()] leaves the registry alone. *)
Definition focusService (srv : nat) : M unit :=
  call (SearchFocus srv).

(** ** The menu router *)

(** [win.webContents.send(channel, payload)]. *)
Definition webContents_send (win : BrowserWindow) (channel payload : string)
  : M unit :=
  call (WebContentsSend (win_id win) channel payload).

(** [win.webContents.getURL()]. *)
Definition webContents_getURL (win : BrowserWindow) : M string :=
  call (WebContentsGetURL (win_id win)) ;;
  ret (win_url win).

(** The body of [case 'find']: nothing when the window shows the search
    bar itself; an open service is focused; a closed one is opened; a
    window without a service gets a new one, which is opened. *)
Definition find_action (win : BrowserWindow) : M unit :=
  url <- webContents_getURL win ;;
  if negb (Js.indexOf "search-bar" url =? -1)%Z then ret tt
  else
    srv <- getService win ;;
    match srv with
    | Some h =>
        opened <- isOpened h ;;
        if opened then focusService h else openService h
    | None =>
        h <- newService win ;;
        openService h
    end.

Definition _handleApplicationAction (action : string) (win : BrowserWindow)
  : M unit :=
  let windowCommand := "command" in
  if Js.case_of ["quit"] action then
    call AppQuit
  else if Js.case_of ["open-saved"; "open-history"; "open-drive";
                      "open-messages"; "show-settings"; "about";
                      "open-license"; "import-data"; "export-data";
                      "login-external-webservice"; "open-cookie-manager";
                      "open-hosts-editor"; "open-themes"] action then
    webContents_send win windowCommand action
  else if Js.case_of ["new-window"] action then
    call (WmOpen None)
  else if Js.case_of ["open-privacy-policy"; "open-documentation";
                      "open-faq"; "open-discussions"; "report-issue";
                      "search-issues"; "web-session-help"] action then
    call (HelpWith action)
  else if Js.case_of ["task-manager"] action then
    call WmOpenTaskManager
  else if Js.case_of ["find"] action then
    find_action win
  else ret tt.

Definition _menuHandler (action : string) (win : BrowserWindow) : M unit :=
  if (Js.indexOf "application" action =? 0)%Z then
    _handleApplicationAction (Js.substr 12 action) win
  else if (Js.indexOf "request" action =? 0)%Z then
    webContents_send win "request-action" (Js.substr 8 action)
  else ret tt.

Definition _listenMenu : M unit :=
  call (MenuOn "menu-action").

(** ** Construction and the top level of the module *)

Definition _processArguments : M unit :=
  call (New "AppOptions") ;;
  call OptionsParse.

Definition constructor : M unit :=
  _registerProtocols ;;
  _processArguments ;;
  call (New "ArcMainMenu") ;;
  call OptionsGetOptions ;;
  call (New "ArcWindowsManager") ;;
  call (New "UpdateStatus") ;;
  call (New "SessionManager") ;;
  call (New "RemoteApi") ;;
  call (New "AppPrompts") ;;
  call (New "DriveExport") ;;
  _listenMenu.

Definition attachListeners : M unit :=
  call (AppOn "ready") ;;
  call (AppOn "window-all-closed") ;;
  call (AppOn "activate").

(** [global.arcApp = arcApp]. *)
Definition publish_arcApp : M unit :=
  modify (fun w =>
    mkWorld (argv w) (platform w) (node_env w) (prepared w) (hasWindow w)
            (services w) true).

(** The listener of [open-theme-editor] on [ipcMain]. *)
Definition open_theme_editor (sender : nat) (data : Value) : M unit :=
  call (LogInfo [VStr "Starting theme editor"]) ;;
  call (New "ThemesEditor") ;;
  call (ThemesEditorRun sender data).

(** The statements of the module after the class. *)
Definition main : M unit :=
  constructor ;;
  attachListeners ;;
  env <- get node_env ;;
  (if Js.strict_eq env "test" then call TestInterface else ret tt) ;;
  debug <- get isDebug ;;
  (if debug then publish_arcApp else ret tt) ;;
  call (IpcMainOn "open-theme-editor").

(** ** Vocabulary of the specification *)

Definition is_PrepareEnvironment (e : Event) : bool :=
  match e with PrepareEnvironment => true | _ => false end.

(** The five [listen()] calls of the ready sequence. *)
Definition is_listen (e : Event) : bool :=
  match e with
  | IdentityListen | WmListen | PromptsListen | UsListen | GdriveListen => true
  | _ => false
  end.

Definition is_LogError (e : Event) : bool :=
  match e with LogError _ => true | _ => false end.

Definition is_MenuBuild (e : Event) : bool :=
  match e with MenuBuild => true | _ => false end.

Definition is_SmStart (e : Event) : bool :=
  match e with SmStart => true | _ => false end.

Definition is_UsStart (e : Event) : bool :=
  match e with UsStart => true | _ => false end.

Definition is_WmOpen (e : Event) : bool :=
  match e with WmOpen _ => true | _ => false end.

Definition is_PreventDefault (e : Event) : bool :=
  match e with PreventDefault => true | _ => false end.

(** Every call satisfying [P] comes strictly before every call
    satisfying [Q]. *)
Definition precedes (P Q : Event -> bool) (t : list Event) : Prop :=
  forall i j a b,
    nth_error t i = Some a -> nth_error t j = Some b ->
    P a = true -> Q b = true -> i < j.

Fixpoint precedesb (P Q : Event -> bool) (t : list Event) : bool :=
  match t with
  | [] => true
  | e :: t' =>
      if Q e then forallb (fun x => negb (P x)) t
      else precedesb P Q t'
  end.

(** How often a call satisfying [P] was made. *)
Definition times (P : Event -> bool) (t : list Event) : nat :=
  List.length (filter P t).

(** The forwarded commands of the Application Action Table. *)
Definition forwarded_commands : list string :=
  ["open-saved"; "open-history"; "open-drive"; "open-messages";
   "show-settings"; "about"; "open-license"; "import-data"; "export-data";
   "login-external-webservice"; "open-cookie-manager"; "open-hosts-editor";
   "open-themes"].

Definition help_commands : list string :=
  ["open-privacy-policy"; "open-documentation"; "open-faq";
   "open-discussions"; "report-issue"; "search-issues"; "web-session-help"].

(** The command names of the Application Action Table. *)
Definition application_action_table : list string :=
  forwarded_commands ++ ["quit"; "new-window"] ++ help_commands
    ++ ["task-manager"; "find"].

(** The namespace of an action identifier: the text before its first
    dash. *)
Definition namespace (action : string) : string :=
  hd "" (Js.split "-" action).

(** The window shows the in-page search UI. *)
Definition shows_search_bar (win : BrowserWindow) : bool :=
  negb (Js.indexOf "search-bar" (win_url win) =? -1)%Z.

(** Number of search-service instances registered for a window. *)
Definition instances_of (win : nat) (l : list Service) : nat :=
  List.length (filter (fun s => Nat.eqb (srv_win s) win) l).

(** The same process started with other arguments. *)
Definition set_argv (a : list string) (w : World) : World :=
  mkWorld a (platform w) (node_env w) (prepared w) (hasWindow w)
          (services w) (global_arcApp w).

Definition run_with_argv {A : Type} (a : list string) (r : Run A) : Run A :=
  mkRun (outcome r) (set_argv a (final r)) (calls r).

(** A process on Linux, started plainly, whose environment preparation
    succeeds. *)
Definition plain_world : World :=
  mkWorld ["electron"; "."] "linux" None (Normal tt) false [] false.

(** The same process when environment preparation fails. *)
Definition enoent_world : World :=
  mkWorld ["electron"; "."] "linux" None (Throw (VErr "ENOENT")) false []
          false.

(** The same process when the preparation is rejected with nothing. *)
Definition nothing_world : World :=
  mkWorld ["electron"; "."] "linux" None (Throw VUndefined) false [] false.

Definition app_window : BrowserWindow :=
  mkWindow 1 "file:///app/src/arc.html".

(** A window that shows the in-page search UI. *)
Definition search_window : BrowserWindow :=
  mkWindow 2 "file:///app/src/search-bar.html".

(** Steps (2) to (6) of the ready sequence, in the order of the
    specification; [debug] is whether the process runs under a
    debugger. *)
Definition ready_steps (debug : bool) : list Event :=
  [LogInfo [VStr "Application is now ready"];
   IdentityListen; WmListen; PromptsListen; UsListen; GdriveListen;
   WmOpen None]
  ++ (if debug then [] else [UsStart])
  ++ [MenuBuild; SmStart].

(** The argument scan behind [isDebug]. *)
Definition mentions_inspect (i : string) : bool :=
  negb (Js.indexOf "--inspect" i =? -1)%Z.

(** A computation that neither consults nor changes [process.argv]. *)
Definition argv_blind {A : Type} (m : M A) : Prop :=
  forall a w, m (set_argv a w) = run_with_argv a (m w).

(** ** The listeners, as the host calls them *)

(** The events [main.js] registers a listener for: [open-url] in
    [_registerProtocols]; [ready], [window-all-closed] and [activate]
    in [attachListeners]; [menu-action] in [_listenMenu];
    [open-theme-editor] on [ipcMain]. *)
Inductive AppEvent : Type :=
| EvOpenUrl (url : string)
| EvReady
| EvWindowAllClosed
| EvActivate
| EvMenuAction (action : string) (win : BrowserWindow)
| EvOpenThemeEditor (sender : nat) (data : Value).

(** The listener that an event reaches. *)
Definition handle (e : AppEvent) : M unit :=
  match e with
  | EvOpenUrl url => _registerProtocols_open_url url
  | EvReady => _readyHandler
  | EvWindowAllClosed => _allClosedHandler
  | EvActivate => _activateHandler
  | EvMenuAction action win => _menuHandler action win
  | EvOpenThemeEditor sender data => open_theme_editor sender data
  end.

(** The text has no occurrence of the character. *)
Fixpoint free_of (c : ascii) (s : string) : bool :=
  match s with
  | EmptyString => true
  | String x s' => negb (Ascii.eqb x c) && free_of c s'
  end.

(** The text occurs somewhere in the other. *)
Definition occurs_in (needle s : string) : Prop :=
  exists pre post, s = pre ++ needle ++ post.

(** A listener is being registered. *)
Definition is_registration (e : Event) : bool :=
  match e with
  | AppOn _ | MenuOn _ | IpcMainOn _ => true
  | _ => false
  end.

(** A call that starts a part of the application or talks to a
    window: what the ready sequence and the listeners do, as opposed
    to construction and registration. *)
Definition is_startup_call (e : Event) : bool :=
  match e with
  | PrepareEnvironment | IdentityListen | WmListen | PromptsListen
  | UsListen | GdriveListen | WmOpen _ | WmOpenTaskManager | UsStart
  | SmStart | MenuBuild | AppQuit | WebContentsSend _ _ _ => true
  | _ => false
  end.

(** The window or the window's search service a call is made on, for
    the calls that are made on one. *)
Definition window_of (e : Event) : option nat :=
  match e with
  | WebContentsSend win _ _ | WebContentsGetURL win
  | SearchGetService win | SearchNew win => Some win
  | _ => None
  end.

(** What a promise is rejected with when nothing, or [null], is given. *)
Definition nullish (v : Value) : bool :=
  match v with
  | VUndefined | VNull => true
  | _ => false
  end.

(** [prepareEnvironment()] rejects with [undefined] or [null]. *)
Definition rejects_nullish (w : World) : bool :=
  match prepared w with
  | Throw cause => nullish cause
  | Normal _ => false
  end.

(** The events that can end the application: the last window closed
    on a platform other than macOS, and the menu's [quit]. *)
Definition asks_to_quit (platform : string) (e : AppEvent) : bool :=
  match e with
  | EvWindowAllClosed => negb (platform =? "darwin")
  | EvMenuAction action _ =>
      prefix "application" action && (Js.substr 12 action =? "quit")
  | _ => false
  end.

(** The state but for the search-service registry. *)
Definition same_but_services (w1 w2 : World) : Prop :=
  w2 = set_services (services w2) w1.

(** The services of a window. *)
Definition services_of (win : nat) (l : list Service) : list Service :=
  filter (fun s => Nat.eqb (srv_win s) win) l.

(** * Properties *)

(** ** String primitives *)

Section StringFacts.

Lemma indexOf_from_range needle s : forall pos,
  Js.indexOf_from pos needle s = (-1)%Z
  \/ (Z.of_nat pos <= Js.indexOf_from pos needle s)%Z.
Proof.
  induction s as [|c s IH]; intros pos; cbn [Js.indexOf_from].
  - destruct (prefix needle ""); [right; lia | left; reflexivity].
  - destruct (prefix needle (String c s)); [right; lia|].
    destruct (IH (S pos)) as [H|H]; [left; exact H | right; lia].
Qed.

(** [s.indexOf(needle) === 0] is the test that [s] begins with
    [needle]. *)
Lemma indexOf_zero_prefix needle s :
  (Js.indexOf needle s =? 0)%Z = prefix needle s.
Proof.
  unfold Js.indexOf.
  destruct s as [|c s]; cbn [Js.indexOf_from].
  - destruct (prefix needle ""); reflexivity.
  - destruct (prefix needle (String c s)); [reflexivity|].
    destruct (indexOf_from_range needle s 1) as [H|H].
    + rewrite H. reflexivity.
    + apply Z.eqb_neq. lia.
Qed.

Lemma split_nonempty sep s : Js.split sep s <> [].
Proof.
  destruct s as [|c s]; simpl; [discriminate|].
  destruct (Ascii.eqb c sep); [discriminate|].
  destruct (Js.split sep s); discriminate.
Qed.

Lemma case_of_In labels v : Js.case_of labels v = true <-> In v labels.
Proof.
  unfold Js.case_of. rewrite existsb_exists. split.
  - intros [x [Hin Heq]]. apply String.eqb_eq in Heq. subst. exact Hin.
  - intros Hin. exists v. split; [exact Hin | apply String.eqb_refl].
Qed.

Lemma case_of_absent labels v :
  ~ In v labels -> Js.case_of labels v = false.
Proof.
  intros H. destruct (Js.case_of labels v) eqn:E; [|reflexivity].
  apply case_of_In in E. contradiction.
Qed.

(** A segment list shorter than three has no third item. *)
Lemma item_beyond (parts : list string) i :
  List.length parts <= i -> Js.item parts i = None.
Proof. intros H. apply nth_error_None. exact H. Qed.

End StringFacts.

(** ** Order of calls *)

Section Order.

Variables P Q : Event -> bool.

Lemma precedesb_sound t : precedesb P Q t = true -> precedes P Q t.
Proof.
  induction t as [|e t IH]; intros Hb i j a b Hi Hj Pa Qb.
  - destruct i; discriminate.
  - cbn [precedesb] in Hb. destruct (Q e) eqn:Qe.
    + rewrite forallb_forall in Hb.
      apply nth_error_In in Hi. apply Hb in Hi.
      rewrite Pa in Hi. discriminate.
    + destruct j as [|j].
      * simpl in Hj. injection Hj as ->. congruence.
      * destruct i as [|i]; [lia|].
        simpl in Hi, Hj.
        specialize (IH Hb i j a b Hi Hj Pa Qb). lia.
Qed.

End Order.

(** ** The protocol handler *)

(** What the [open-url] listener does, for every URL and state. *)
Lemma open_url_run url w :
  _registerProtocols_open_url url w =
  mkRun (Normal tt) w
    ([LogInfo [VStr "arc-file protocol handles "; VStr url]; PreventDefault]
     ++ let parts := Js.split "/" (Js.substr 11 url) in
        if Js.strict_eq (Js.item parts 0) "drive"
        then [WmOpen (Some ("/request/drive/"
                              ++ Js.toString (Js.item parts 1) ++ "/"
                              ++ Js.toString (Js.item parts 2)))]
        else []).
Proof.
  unfold _registerProtocols_open_url, bind, call, ret; simpl.
  destruct (Js.strict_eq _ "drive"); reflexivity.
Qed.

Lemma strict_eq_true v s : Js.strict_eq v s = true <-> v = Some s.
Proof.
  destruct v as [x|]; simpl.
  - rewrite String.eqb_eq. split; congruence.
  - split; discriminate.
Qed.

(** C3: the URL [arc-file://drive/open/abc123] makes the handler call
    the window manager's [open] with exactly
    [/request/drive/open/abc123]; a URL whose first segment after the
    11-character prefix is not [drive] never reaches [open]. *)
Theorem open_url_navigates_only_drive (w : World) :
  _registerProtocols_open_url "arc-file://drive/open/abc123" w =
    mkRun (Normal tt) w
      [LogInfo [VStr "arc-file protocol handles ";
                VStr "arc-file://drive/open/abc123"];
       PreventDefault;
       WmOpen (Some "/request/drive/open/abc123")]
  /\ forall url,
       Js.item (Js.split "/" (Js.substr 11 url)) 0 <> Some "drive" ->
       filter is_WmOpen (calls (_registerProtocols_open_url url w)) = [].
Proof.
  split; [reflexivity|].
  intros url Hkind. rewrite open_url_run. simpl.
  destruct (Js.strict_eq _ "drive") eqn:E; [|reflexivity].
  apply strict_eq_true in E. contradiction.
Qed.

(** The second example of the specification: an unknown kind. *)
Lemma open_url_unknown_kind :
  filter is_WmOpen
    (calls (_registerProtocols_open_url "arc-file://unknown/x/y" plain_world))
  = [].
Proof.
  apply (proj2 (open_url_navigates_only_drive plain_world)).
  simpl. discriminate.
Defined.

(** C4: whatever the URL, the handler calls [event.preventDefault()]
    exactly once. *)
Theorem open_url_prevents_default_once (url : string) (w : World) :
  times is_PreventDefault (calls (_registerProtocols_open_url url w)) = 1.
Proof.
  rewrite open_url_run. unfold times. simpl.
  destruct (Js.strict_eq _ "drive"); reflexivity.
Qed.

(** C5: a drive URL with fewer than three segments after the prefix
    does not make the handler throw: it completes normally, hands the
    window manager a target built from the segments that are there
    (a missing one reads as [undefined]), leaves the state alone, and
    the target depends on the URL only. *)
Theorem open_url_short_drive_total (url : string) (w : World) :
  let parts := Js.split "/" (Js.substr 11 url) in
  Js.item parts 0 = Some "drive" ->
  List.length parts < 3 ->
  _registerProtocols_open_url url w =
    mkRun (Normal tt) w
      [LogInfo [VStr "arc-file protocol handles "; VStr url];
       PreventDefault;
       WmOpen (Some ("/request/drive/" ++ Js.toString (Js.item parts 1)
                       ++ "/undefined"))]
  /\ forall w',
       calls (_registerProtocols_open_url url w')
       = calls (_registerProtocols_open_url url w).
Proof.
  intros parts Hkind Hlen. split.
  - rewrite open_url_run. cbv zeta. fold parts.
    apply strict_eq_true in Hkind. rewrite Hkind.
    rewrite (item_beyond parts 2) by lia. reflexivity.
  - intros w'. rewrite !open_url_run. reflexivity.
Qed.

(** The example of the specification: the resource id is missing. *)
Lemma open_url_drive_open_only :
  _registerProtocols_open_url "arc-file://drive/open" plain_world =
    mkRun (Normal tt) plain_world
      [LogInfo [VStr "arc-file protocol handles ";
                VStr "arc-file://drive/open"];
       PreventDefault;
       WmOpen (Some "/request/drive/open/undefined")].
Proof.
  apply (open_url_short_drive_total "arc-file://drive/open" plain_world);
    [reflexivity | vm_compute; lia].
Defined.

(** ** The ready sequence *)

(** The [.then] callback performs the steps of the specification and
    nothing else. *)
Lemma ready_then_run w :
  _readyHandler_then w = mkRun (Normal tt) w (ready_steps (isDebug w)).
Proof.
  unfold _readyHandler_then, ready_steps.
  lazy -[isDebug]. destruct (isDebug w); reflexivity.
Qed.

(** The whole handler, by the way [prepareEnvironment()] settles. *)
Lemma ready_run w :
  _readyHandler w =
  match prepared w with
  | Normal _ =>
      mkRun (Normal tt) w
        ([New "AppDefaults"; PrepareEnvironment] ++ ready_steps (isDebug w))
  | Throw (VErr m) =>
      mkRun (Normal tt) w
        ([New "AppDefaults"; PrepareEnvironment;
          LogError [VStr "Unable to prepare the environment."; VStr m];
          LogError [VErr m]] ++ ready_steps (isDebug w))
  | Throw (VStr s) =>
      mkRun (Normal tt) w
        ([New "AppDefaults"; PrepareEnvironment;
          LogError [VStr "Unable to prepare the environment."; VUndefined];
          LogError [VStr s]] ++ ready_steps (isDebug w))
  | Throw _ =>
      mkRun (Throw (VErr "TypeError")) w
        [New "AppDefaults"; PrepareEnvironment]
  end.
Proof.
  unfold _readyHandler, promise_then, promise_catch, prepareEnvironment.
  unfold bind at 1. unfold bind at 2 3. unfold call at 1 2.
  cbn -[_readyHandler_then].
  destruct (prepared w) as [[]|[| |s|m]]; cbn -[_readyHandler_then];
    rewrite ?ready_then_run; reflexivity.
Qed.

(** C1: in the ready handler [prepareEnvironment] is called, once,
    before every [listen()] call; every [listen()] call comes before
    the menu's [build()]; [build()] comes strictly before the session
    manager's [start()].  The promise is awaited: what the [.catch]
    callback logs comes before every [listen()], and when the promise
    is rejected with [undefined] or [null], so that the chain stops in
    the [.catch] callback, no [listen()], [build()] or [start()] is
    called at all.  In every other case, preparation fulfilled or
    rejected with any other cause, the handler completes and the five
    listeners, in the order identity, window manager, prompts, update
    status, drive export, then [build()] and [start()] have each been
    called exactly once. *)
Theorem ready_order (w : World) :
  let t := calls (_readyHandler w) in
  times is_PrepareEnvironment t = 1
  /\ precedes is_PrepareEnvironment is_listen t
  /\ precedes is_LogError is_listen t
  /\ precedes is_listen is_MenuBuild t
  /\ precedes is_MenuBuild is_SmStart t
  /\ (rejects_nullish w = false ->
      outcome (_readyHandler w) = Normal tt
      /\ filter is_listen t
         = [IdentityListen; WmListen; PromptsListen; UsListen; GdriveListen]
      /\ times is_MenuBuild t = 1
      /\ times is_SmStart t = 1)
  /\ (rejects_nullish w = true ->
      filter is_listen t = []
      /\ times is_MenuBuild t = 0
      /\ times is_SmStart t = 0).
Proof.
  unfold rejects_nullish. rewrite ready_run.
  destruct (prepared w) as [[]|[| |s|m]]; destruct (isDebug w);
    cbn [nullish];
    repeat apply conj;
    try (apply precedesb_sound; reflexivity);
    try reflexivity;
    intros H; try discriminate H;
    repeat apply conj; reflexivity.
Qed.

(** A plain start, a start whose preparation fails with an error, and
    a start whose preparation is rejected with nothing. *)
Lemma ready_order_runs :
  (outcome (_readyHandler plain_world) = Normal tt
   /\ filter is_listen (calls (_readyHandler plain_world))
      = [IdentityListen; WmListen; PromptsListen; UsListen; GdriveListen]
   /\ times is_MenuBuild (calls (_readyHandler plain_world)) = 1
   /\ times is_SmStart (calls (_readyHandler plain_world)) = 1)
  /\ (outcome (_readyHandler enoent_world) = Normal tt
      /\ filter is_listen (calls (_readyHandler enoent_world))
         = [IdentityListen; WmListen; PromptsListen; UsListen; GdriveListen]
      /\ times is_MenuBuild (calls (_readyHandler enoent_world)) = 1
      /\ times is_SmStart (calls (_readyHandler enoent_world)) = 1)
  /\ (filter is_listen (calls (_readyHandler nothing_world)) = []
      /\ times is_MenuBuild (calls (_readyHandler nothing_world)) = 0
      /\ times is_SmStart (calls (_readyHandler nothing_world)) = 0).
Proof.
  destruct (ready_order plain_world) as (_ & _ & _ & _ & _ & Hplain & _).
  destruct (ready_order enoent_world) as (_ & _ & _ & _ & _ & Herr & _).
  destruct (ready_order nothing_world) as (_ & _ & _ & _ & _ & _ & Hnone).
  split; [apply Hplain; reflexivity|].
  split; [apply Herr; reflexivity | apply Hnone; reflexivity].
Defined.

(** C2: when [prepareEnvironment] rejects with an error, the handler
    logs the error's message and the error itself as two entries, then
    performs every step of the sequence and completes normally; the
    calls it makes are the logger's and the startup steps, nothing
    else. *)
Theorem ready_survives_failed_preparation (w : World) (m : string) :
  prepared w = Throw (VErr m) ->
  _readyHandler w =
    mkRun (Normal tt) w
      ([New "AppDefaults"; PrepareEnvironment;
        LogError [VStr "Unable to prepare the environment."; VStr m];
        LogError [VErr m];
        LogInfo [VStr "Application is now ready"];
        IdentityListen; WmListen; PromptsListen; UsListen; GdriveListen;
        WmOpen None]
       ++ (if isDebug w then [] else [UsStart])
       ++ [MenuBuild; SmStart]).
Proof.
  intros H. rewrite ready_run, H. reflexivity.
Qed.

(** A preparation that fails with [ENOENT], no debugger attached. *)
Lemma ready_survives_enoent :
  _readyHandler enoent_world
  = mkRun (Normal tt) enoent_world
      [New "AppDefaults"; PrepareEnvironment;
       LogError [VStr "Unable to prepare the environment."; VStr "ENOENT"];
       LogError [VErr "ENOENT"];
       LogInfo [VStr "Application is now ready"];
       IdentityListen; WmListen; PromptsListen; UsListen; GdriveListen;
       WmOpen None; UsStart; MenuBuild; SmStart].
Proof.
  exact (ready_survives_failed_preparation enoent_world "ENOENT" eq_refl).
Defined.

(** ** The menu router *)

(** Namespace dispatch is a prefix test. *)
Lemma menu_dispatch action win :
  _menuHandler action win =
  if prefix "application" action then
    _handleApplicationAction (Js.substr 12 action) win
  else if prefix "request" action then
    webContents_send win "request-action" (Js.substr 8 action)
  else ret tt.
Proof.
  unfold _menuHandler. rewrite !indexOf_zero_prefix. reflexivity.
Qed.

(** A command outside the table falls through every [case]. *)
Lemma application_action_unknown action win :
  ~ In action application_action_table ->
  _handleApplicationAction action win = ret tt.
Proof.
  intros H. unfold _handleApplicationAction.
  repeat (rewrite case_of_absent;
          [| intros Hin; apply H; unfold application_action_table,
               forwarded_commands, help_commands; simpl in Hin |- *; tauto]).
  reflexivity.
Qed.

(** C6: routing [application-<command>] for one of the thirteen
    forwarded commands sends the supplied window exactly one [command]
    event whose payload is the command name, calls nothing else and
    leaves the state alone. *)
Theorem forwarded_command_sent_once
  (cmd : string) (win : BrowserWindow) (w : World) :
  In cmd forwarded_commands ->
  _menuHandler ("application-" ++ cmd) win w =
    mkRun (Normal tt) w [WebContentsSend (win_id win) "command" cmd].
Proof.
  intros H. unfold forwarded_commands in H. simpl in H.
  repeat (destruct H as [<-|H]; [reflexivity|]).
  contradiction.
Qed.

(** The [about] item of the menu. *)
Lemma forwarded_about :
  _menuHandler "application-about" app_window plain_world =
    mkRun (Normal tt) plain_world [WebContentsSend 1 "command" "about"].
Proof.
  apply (forwarded_command_sent_once "about" app_window plain_world).
  unfold forwarded_commands. simpl. tauto.
Defined.

(** C7, as amended: an action that begins with neither [application]
    nor [request], and an action that begins with [application] whose
    text after the first twelve characters is not a command of the
    Application Action Table, make the router do nothing: no call, no
    change of state, normal completion. *)
Theorem unrecognised_action_is_noop
  (action : string) (win : BrowserWindow) (w : World) :
  (prefix "application" action = false /\ prefix "request" action = false)
  \/ (prefix "application" action = true
      /\ ~ In (Js.substr 12 action) application_action_table) ->
  _menuHandler action win w = mkRun (Normal tt) w [].
Proof.
  rewrite menu_dispatch. intros [[Ha Hr]|[Ha Hcmd]]; rewrite Ha.
  - rewrite Hr. reflexivity.
  - rewrite application_action_unknown by exact Hcmd. reflexivity.
Qed.

(** An action of another namespace, and an application command the
    table does not have. *)
Lemma unrecognised_examples :
  _menuHandler "view-zoom-in" app_window plain_world
    = mkRun (Normal tt) plain_world []
  /\ _menuHandler "application-open-workspace" app_window plain_world
    = mkRun (Normal tt) plain_world [].
Proof.
  split.
  - apply (unrecognised_action_is_noop "view-zoom-in"). left.
    split; reflexivity.
  - apply (unrecognised_action_is_noop "application-open-workspace"). right.
    split; [reflexivity|].
    unfold application_action_table, forwarded_commands, help_commands.
    simpl. intuition discriminate.
Defined.

(** C7, as stated, fails: the namespace of [requests-foo] is
    [requests], which is neither [application] nor [request], and yet
    the router sends the window a [request-action] event. *)
Lemma namespace_requests_is_routed :
  namespace "requests-foo" <> "application"
  /\ namespace "requests-foo" <> "request"
  /\ _menuHandler "requests-foo" app_window plain_world
     = mkRun (Normal tt) plain_world
         [WebContentsSend 1 "request-action" "-foo"]
  /\ _menuHandler "requests-foo" app_window plain_world
     <> mkRun (Normal tt) plain_world [].
Proof.
  repeat split; try reflexivity; vm_compute; discriminate.
Qed.

(** C10, as amended: an action that begins with the eleven characters
    [application] loses its first twelve characters and the rest goes
    through the application table, so [application] alone dispatches
    the empty command and does nothing, and [applicationXquit]
    dispatches [quit] and quits; any other action that begins with
    [request] loses its first eight characters and the rest is sent
    as it is in a [request-action] event, whatever character followed
    the prefix. *)
Theorem namespace_is_prefix_test (win : BrowserWindow) (w : World) :
  (forall action, prefix "application" action = true ->
     _menuHandler action win w
     = _handleApplicationAction (Js.substr 12 action) win w)
  /\ _menuHandler "application" win w = mkRun (Normal tt) w []
  /\ Js.substr 12 "applicationXquit" = "quit"
  /\ _menuHandler "applicationXquit" win w = mkRun (Normal tt) w [AppQuit]
  /\ (forall action,
        prefix "application" action = false ->
        prefix "request" action = true ->
        _menuHandler action win w
        = mkRun (Normal tt) w
            [WebContentsSend (win_id win) "request-action"
               (Js.substr 8 action)]).
Proof.
  repeat split; try reflexivity.
  - intros action H. rewrite menu_dispatch, H. reflexivity.
  - intros action Ha Hr. rewrite menu_dispatch, Ha, Hr. reflexivity.
Qed.

(** A regular application action, and a request action whose eighth
    character is not a dash. *)
Lemma prefix_test_examples :
  _menuHandler "application-task-manager" app_window plain_world
    = _handleApplicationAction "task-manager" app_window plain_world
  /\ _menuHandler "requestXsave" app_window plain_world
    = mkRun (Normal tt) plain_world
        [WebContentsSend 1 "request-action" "save"].
Proof.
  destruct (namespace_is_prefix_test app_window plain_world)
    as (Happ & _ & _ & _ & Hreq).
  split.
  - apply (Happ "application-task-manager"). reflexivity.
  - apply (Hreq "requestXsave"); reflexivity.
Defined.

(** C10, as stated, fails on its example: [applicationXquit] does not
    dispatch [uit], which would do nothing; the text left after twelve
    characters is [quit], and the application quits. *)
Lemma applicationXquit_dispatches_quit :
  Js.substr 12 "applicationXquit" <> "uit"
  /\ _menuHandler "applicationXquit" app_window plain_world
     <> _handleApplicationAction "uit" app_window plain_world
  /\ calls (_handleApplicationAction "uit" app_window plain_world) = []
  /\ calls (_menuHandler "applicationXquit" app_window plain_world)
     = [AppQuit].
Proof.
  repeat split; try reflexivity; vm_compute; discriminate.
Qed.

(** ** The search-service registry *)

Section Registry.

Lemma lookup_service_some win l : forall pos h,
  lookup_service win pos l = Some h ->
  pos <= h /\ exists s, nth_error l (h - pos) = Some s /\ srv_win s = win.
Proof.
  induction l as [|s l IH]; intros pos h H; simpl in H; [discriminate|].
  destruct (Nat.eqb_spec (srv_win s) win) as [E|E].
  - injection H as <-. split; [lia|].
    exists s. rewrite Nat.sub_diag. split; [reflexivity | exact E].
  - apply IH in H. destruct H as [Hle [s' [Hn Hw]]]. split; [lia|].
    exists s'. replace (h - pos) with (S (h - S pos)) by lia.
    split; assumption.
Qed.

Lemma lookup_service_none win l : forall pos,
  lookup_service win pos l = None -> instances_of win l = 0.
Proof.
  induction l as [|s l IH]; intros pos H; [reflexivity|].
  unfold instances_of in *. simpl in *.
  destruct (Nat.eqb (srv_win s) win); [discriminate|].
  apply (IH (S pos)). exact H.
Qed.

Lemma lookup_service_counted win l pos h :
  lookup_service win pos l = Some h -> 1 <= instances_of win l.
Proof.
  revert pos. induction l as [|s l IH]; intros pos H; [discriminate|].
  unfold instances_of in *. simpl in *.
  destruct (Nat.eqb (srv_win s) win); simpl; [lia|].
  apply (IH (S pos)). exact H.
Qed.

Lemma lookup_service_app_new win b l : forall pos,
  lookup_service win pos l = None ->
  lookup_service win pos (l ++ [mkService win b])
  = Some (pos + List.length l).
Proof.
  induction l as [|s l IH]; intros pos H; simpl in *.
  - rewrite Nat.eqb_refl. f_equal. lia.
  - destruct (Nat.eqb (srv_win s) win); [discriminate|].
    rewrite IH by exact H. f_equal. lia.
Qed.

Lemma lookup_service_mark_opened win l : forall h pos,
  lookup_service win pos (mark_opened h l) = lookup_service win pos l.
Proof.
  induction l as [|s l IH]; intros h pos; [destruct h; reflexivity|].
  destruct h as [|h]; simpl; [reflexivity|].
  rewrite IH. reflexivity.
Qed.

Lemma instances_of_mark_opened win l : forall h,
  instances_of win (mark_opened h l) = instances_of win l.
Proof.
  unfold instances_of.
  induction l as [|s l IH]; intros h; [destruct h; reflexivity|].
  destruct h as [|h]; simpl.
  - destruct (Nat.eqb (srv_win s) win); reflexivity.
  - destruct (Nat.eqb (srv_win s) win); simpl; rewrite IH; reflexivity.
Qed.

Lemma instances_of_app win l s :
  instances_of win (l ++ [s])
  = instances_of win l + (if Nat.eqb (srv_win s) win then 1 else 0).
Proof.
  unfold instances_of. rewrite filter_app, length_app. simpl.
  destruct (Nat.eqb (srv_win s) win); reflexivity.
Qed.

Lemma is_opened_mark_opened l : forall h,
  h < List.length l -> is_opened h (mark_opened h l) = true.
Proof.
  unfold is_opened.
  induction l as [|s l IH]; intros h H; simpl in H; [lia|].
  destruct h as [|h]; simpl; [reflexivity|].
  apply IH. lia.
Qed.

Lemma mark_opened_last win l :
  mark_opened (List.length l) (l ++ [mkService win false])
  = (l ++ [mkService win true])%list.
Proof.
  induction l as [|s l IH]; simpl; [reflexivity|].
  rewrite IH. reflexivity.
Qed.

Lemma is_opened_last win l :
  is_opened (List.length l) (l ++ [mkService win true]) = true.
Proof.
  unfold is_opened. rewrite nth_error_app.
  rewrite (proj2 (Nat.ltb_ge _ _)) by lia.
  rewrite Nat.sub_diag. reflexivity.
Qed.

End Registry.

(** ** The find action *)

Lemma find_dispatch win :
  _handleApplicationAction "find" win = find_action win.
Proof. reflexivity. Qed.

(** The four ways [case 'find'] can go. *)
Lemma find_run win w :
  find_action win w =
  let id := win_id win in
  let l := services w in
  if shows_search_bar win then
    mkRun (Normal tt) w [WebContentsGetURL id]
  else
    match lookup_service id 0 l with
    | Some h =>
        if is_opened h l then
          mkRun (Normal tt) w
            [WebContentsGetURL id; SearchGetService id;
             SearchIsOpened h; SearchFocus h]
        else
          mkRun (Normal tt) (set_services (mark_opened h l) w)
            [WebContentsGetURL id; SearchGetService id;
             SearchIsOpened h; SearchOpen h]
    | None =>
        mkRun (Normal tt) (set_services (l ++ [mkService id true]) w)
          [WebContentsGetURL id; SearchGetService id;
           SearchNew id; SearchOpen (List.length l)]
    end.
Proof.
  unfold find_action, webContents_getURL, shows_search_bar.
  unfold bind at 1 2. unfold call at 1. unfold ret at 1.
  cbn [outcome final calls app].
  destruct (negb _); [reflexivity|].
  unfold getService, isOpened, newService, openService, focusService,
    bind, call, get, modify, ret.
  cbn [outcome final calls app services set_services].
  destruct (lookup_service (win_id win) 0 (services w)) as [h|].
  - cbn [outcome final calls app services set_services].
    destruct (is_opened h (services w)); reflexivity.
  - cbn [outcome final calls app services set_services].
    rewrite mark_opened_last. reflexivity.
Qed.

(** Two [find] in a row: the second one focuses and constructs
    nothing, whatever the first one did. *)
Lemma find_twice win w :
  shows_search_bar win = false ->
  let r1 := find_action win w in
  let r2 := find_action win (final r1) in
  final r2 = final r1
  /\ instances_of (win_id win) (services (final r2))
     = Nat.max 1 (instances_of (win_id win) (services w))
  /\ exists h,
       calls r2 = [WebContentsGetURL (win_id win);
                   SearchGetService (win_id win);
                   SearchIsOpened h; SearchFocus h].
Proof.
  intros Hurl r1 r2. subst r1 r2. rewrite (find_run win w).
  cbv zeta. rewrite Hurl.
  destruct (lookup_service (win_id win) 0 (services w)) as [h|] eqn:Hl.
  - pose proof (lookup_service_counted _ _ _ _ Hl) as Hc.
    destruct (is_opened h (services w)) eqn:Ho;
      cbn [final]; rewrite find_run; cbv zeta; rewrite Hurl;
      cbn [services set_services].
    + rewrite Hl, Ho. cbn [final calls services].
      split; [reflexivity|]. split; [lia|]. exists h. reflexivity.
    + rewrite lookup_service_mark_opened, Hl.
      destruct (lookup_service_some _ _ _ _ Hl) as [_ [s [Hn _]]].
      rewrite Nat.sub_0_r in Hn.
      rewrite is_opened_mark_opened
        by (apply nth_error_Some; congruence).
      cbn [final calls services set_services].
      rewrite instances_of_mark_opened.
      split; [reflexivity|]. split; [lia|]. exists h. reflexivity.
  - pose proof (lookup_service_none _ _ _ Hl) as Hc.
    cbn [final]; rewrite find_run; cbv zeta; rewrite Hurl;
      cbn [services set_services].
    rewrite (lookup_service_app_new _ true _ 0 Hl). cbn [Nat.add].
    rewrite is_opened_last.
    cbn [final calls services set_services].
    rewrite instances_of_app. cbn [srv_win]. rewrite Nat.eqb_refl, Hc.
    split; [reflexivity|]. split; [reflexivity|].
    exists (List.length (services w)). reflexivity.
Qed.

(** [find] never registers a second instance for a window. *)
Lemma find_preserves_singletons win w :
  (forall k, instances_of k (services w) <= 1) ->
  forall k, instances_of k (services (final (find_action win w))) <= 1.
Proof.
  intros Hinv k. rewrite find_run. cbv zeta.
  destruct (shows_search_bar win); [apply Hinv|].
  destruct (lookup_service (win_id win) 0 (services w)) as [h|] eqn:Hl.
  - destruct (is_opened h (services w)); cbn [final services set_services].
    + apply Hinv.
    + rewrite instances_of_mark_opened. apply Hinv.
  - cbn [final services set_services]. rewrite instances_of_app.
    cbn [srv_win]. destruct (Nat.eqb_spec (win_id win) k) as [<-|_].
    + rewrite (lookup_service_none _ _ _ Hl). lia.
    + specialize (Hinv k). lia.
Qed.

(** C8, as amended: [find] keeps at most one search service per
    window.  When the window shows the search UI the action stops
    after the URL check.  A service of the window that reports
    [isOpened()] is focused, not reopened, and nothing is constructed.
    A service of the window that is closed is opened again, and
    nothing is constructed.  A window without a service gets a new
    one, which is opened.  After two [find] in a row on a window that
    had no service there is exactly one, and the second call focuses
    it. *)
Theorem find_keeps_one_service (win : BrowserWindow) (w : World) :
  let id := win_id win in
  let l := services w in
  (shows_search_bar win = true ->
     _handleApplicationAction "find" win w
     = mkRun (Normal tt) w [WebContentsGetURL id])
  /\ (forall h,
        shows_search_bar win = false ->
        lookup_service id 0 l = Some h -> is_opened h l = true ->
        _handleApplicationAction "find" win w
        = mkRun (Normal tt) w
            [WebContentsGetURL id; SearchGetService id;
             SearchIsOpened h; SearchFocus h])
  /\ (forall h,
        shows_search_bar win = false ->
        lookup_service id 0 l = Some h -> is_opened h l = false ->
        _handleApplicationAction "find" win w
        = mkRun (Normal tt) (set_services (mark_opened h l) w)
            [WebContentsGetURL id; SearchGetService id;
             SearchIsOpened h; SearchOpen h])
  /\ (shows_search_bar win = false ->
      lookup_service id 0 l = None ->
      _handleApplicationAction "find" win w
      = mkRun (Normal tt) (set_services (l ++ [mkService id true]) w)
          [WebContentsGetURL id; SearchGetService id;
           SearchNew id; SearchOpen (List.length l)])
  /\ (shows_search_bar win = false ->
      instances_of id l = 0 ->
      let r1 := _handleApplicationAction "find" win w in
      let r2 := _handleApplicationAction "find" win (final r1) in
      instances_of id (services (final r2)) = 1
      /\ calls r2 = [WebContentsGetURL id; SearchGetService id;
                     SearchIsOpened (List.length l);
                     SearchFocus (List.length l)])
  /\ ((forall k, instances_of k l <= 1) ->
      forall k,
        instances_of k
          (services (final (_handleApplicationAction "find" win w))) <= 1).
Proof.
  intros id l. subst id l. rewrite find_dispatch.
  repeat apply conj.
  - intros Hurl. rewrite find_run. cbv zeta. rewrite Hurl. reflexivity.
  - intros h Hurl Hl Ho. rewrite find_run. cbv zeta.
    rewrite Hurl, Hl, Ho. reflexivity.
  - intros h Hurl Hl Ho. rewrite find_run. cbv zeta.
    rewrite Hurl, Hl, Ho. reflexivity.
  - intros Hurl Hl. rewrite find_run. cbv zeta.
    rewrite Hurl, Hl. reflexivity.
  - intros Hurl Hzero r1 r2.
    destruct (find_twice win w Hurl) as (_ & Hn & _).
    fold r1 in Hn. fold r2 in Hn. rewrite Hzero in Hn.
    split; [exact Hn|].
    subst r2 r1.
    destruct (lookup_service (win_id win) 0 (services w)) as [h|] eqn:Hl.
    + apply lookup_service_counted in Hl. lia.
    + rewrite (find_run win w). cbv zeta. rewrite Hurl, Hl.
      cbn [final]. rewrite find_run. cbv zeta. rewrite Hurl.
      cbn [services set_services].
      rewrite (lookup_service_app_new _ true _ 0 Hl). cbn [Nat.add].
    rewrite is_opened_last.
      reflexivity.
  - apply find_preserves_singletons.
Qed.

(** [find] twice on a window without a service, on the search UI, on
    a window without a service, and on one whose service is closed. *)
Lemma find_twice_on_fresh_window :
  (let r1 := _handleApplicationAction "find" app_window plain_world in
   let r2 := _handleApplicationAction "find" app_window (final r1) in
   instances_of 1 (services (final r2)) = 1
   /\ calls r2 = [WebContentsGetURL 1; SearchGetService 1;
                  SearchIsOpened 0; SearchFocus 0])
  /\ _handleApplicationAction "find" search_window plain_world
     = mkRun (Normal tt) plain_world [WebContentsGetURL 2]
  /\ _handleApplicationAction "find" app_window plain_world
     = mkRun (Normal tt) (set_services [mkService 1 true] plain_world)
         [WebContentsGetURL 1; SearchGetService 1;
          SearchNew 1; SearchOpen 0]
  /\ _handleApplicationAction "find" app_window
       (set_services [mkService 1 false] plain_world)
     = mkRun (Normal tt) (set_services [mkService 1 true] plain_world)
         [WebContentsGetURL 1; SearchGetService 1;
          SearchIsOpened 0; SearchOpen 0].
Proof.
  destruct (find_keeps_one_service app_window plain_world)
    as (_ & _ & _ & Hnew & Htwice & _).
  destruct (find_keeps_one_service search_window plain_world)
    as (Hbar & _).
  destruct (find_keeps_one_service app_window
              (set_services [mkService 1 false] plain_world))
    as (_ & _ & Hclosed & _).
  split; [apply Htwice; reflexivity|].
  split; [apply Hbar; reflexivity|].
  split; [apply Hnew; reflexivity|].
  apply (Hclosed 0); reflexivity.
Defined.

(** C8, as stated, fails in its last clause: a window whose service
    exists and is closed is neither the search UI nor a case of an
    open service, and yet [find] constructs nothing; it opens the
    instance that is there. *)
Lemma find_reopens_closed_service :
  let w := set_services [mkService 1 false] plain_world in
  shows_search_bar app_window = false
  /\ lookup_service 1 0 (services w) = Some 0
  /\ is_opened 0 (services w) = false
  /\ ~ In (SearchNew 1) (calls (_handleApplicationAction "find" app_window w))
  /\ _handleApplicationAction "find" app_window w
     = mkRun (Normal tt) (set_services [mkService 1 true] plain_world)
         [WebContentsGetURL 1; SearchGetService 1;
          SearchIsOpened 0; SearchOpen 0].
Proof.
  repeat apply conj; try reflexivity.
  vm_compute. intuition discriminate.
Qed.

(** ** The debugger check *)

(** [isDebug()] is a substring scan of the argument list: an argument
    that mentions the flag is not the empty string, so [!!] yields
    [true] for it. *)
Lemma isDebug_scan w : isDebug w = existsb mentions_inspect (argv w).
Proof.
  unfold isDebug. fold mentions_inspect.
  induction (argv w) as [|i l IH]; [reflexivity|].
  simpl. destruct (mentions_inspect i) eqn:E; [|exact IH].
  destruct i; [discriminate E | reflexivity].
Qed.

Section ArgvBlind.

Context {A B : Type}.

Lemma blind_ret (x : A) : argv_blind (ret x).
Proof. intros a w. reflexivity. Qed.

Lemma blind_call e : argv_blind (call e).
Proof. intros a w. reflexivity. Qed.

Lemma blind_get (f : World -> A) :
  (forall a w, f (set_argv a w) = f w) -> argv_blind (get f).
Proof.
  intros Hf a w. unfold get, run_with_argv. simpl. rewrite Hf. reflexivity.
Qed.

Lemma blind_bind (m : M A) (k : A -> M B) :
  argv_blind m -> (forall x, argv_blind (k x)) -> argv_blind (bind m k).
Proof.
  intros Hm Hk a w. unfold bind. cbv zeta. rewrite !(Hm a w).
  unfold run_with_argv. cbn [outcome final calls].
  destruct (outcome (m w)) as [x|e]; [|reflexivity].
  rewrite !(Hk x a (final (m w))). reflexivity.
Qed.

Lemma blind_if (c : bool) (m1 m2 : M A) :
  argv_blind m1 -> argv_blind m2 -> argv_blind (if c then m1 else m2).
Proof. destruct c; intros; assumption. Qed.

End ArgvBlind.

Create HintDb blind.
#[local] Hint Resolve blind_ret blind_call blind_bind blind_if : blind.

Lemma blind_open_url url : argv_blind (_registerProtocols_open_url url).
Proof. intros a w. rewrite !open_url_run. reflexivity. Qed.

Lemma blind_allClosed : argv_blind _allClosedHandler.
Proof.
  unfold _allClosedHandler. apply blind_bind.
  - apply blind_get. reflexivity.
  - intros p. auto with blind.
Qed.

Lemma blind_activate : argv_blind _activateHandler.
Proof.
  unfold _activateHandler. apply blind_bind.
  - apply blind_get. reflexivity.
  - intros has. auto with blind.
Qed.

Lemma blind_find win : argv_blind (find_action win).
Proof.
  intros a w. rewrite !find_run. cbv zeta.
  change (services (set_argv a w)) with (services w).
  destruct (shows_search_bar win); [reflexivity|].
  destruct (lookup_service (win_id win) 0 (services w)) as [h|];
    [destruct (is_opened h (services w))|]; reflexivity.
Qed.

Lemma blind_application_action action win :
  argv_blind (_handleApplicationAction action win).
Proof.
  unfold _handleApplicationAction, webContents_send.
  repeat apply blind_if; try apply blind_find; auto with blind.
Qed.

Lemma blind_menu action win : argv_blind (_menuHandler action win).
Proof.
  unfold _menuHandler, webContents_send.
  apply blind_if; [apply blind_application_action|].
  auto with blind.
Qed.

Lemma blind_theme_editor sender data :
  argv_blind (open_theme_editor sender data).
Proof. unfold open_theme_editor. auto 10 with blind. Qed.

Lemma blind_constructor : argv_blind constructor.
Proof.
  unfold constructor, _registerProtocols, _processArguments, _listenMenu.
  auto 20 with blind.
Qed.

Lemma blind_attachListeners : argv_blind attachListeners.
Proof. unfold attachListeners. auto 10 with blind. Qed.

(** The top level of the module: the registrations, the test hook,
    and the application object made global under a debugger. *)
Lemma main_run w :
  main w =
  mkRun (Normal tt)
    (if isDebug w then final (publish_arcApp w) else w)
    (calls (constructor w) ++ calls (attachListeners w)
     ++ (if Js.strict_eq (node_env w) "test" then [TestInterface] else [])
     ++ [IpcMainOn "open-theme-editor"]).
Proof.
  unfold main, bind, get, call, ret. cbn -[isDebug Js.strict_eq].
  destruct (Js.strict_eq (node_env w) "test"); cbn -[isDebug];
    destruct (isDebug w); reflexivity.
Qed.



(** * Further properties of the code *)

(** ** Text: prefixes, segments, occurrences *)

Section TextFacts.

Lemma append_assoc (a b c : string) : (a ++ b) ++ c = a ++ b ++ c.
Proof. induction a as [|x a IH]; simpl; [reflexivity | rewrite IH; reflexivity]. Qed.

Lemma prefix_app p : forall s,
  prefix p s = true <-> exists post, s = p ++ post.
Proof.
  induction p as [|a p IH]; intros s.
  - split; [intros _; exists s; reflexivity|].
    intros _. destruct s; reflexivity.
  - destruct s as [|b s]; simpl.
    + split; [discriminate | intros [post H]; discriminate H].
    + destruct (ascii_dec a b) as [->|Hne].
      * rewrite IH. split; intros [post H]; exists post.
        -- rewrite H. reflexivity.
        -- injection H as H. exact H.
      * split; [discriminate|].
        intros [post H]. injection H as H _. congruence.
Qed.

Lemma substr_app p s : Js.substr (String.length p) (p ++ s) = s.
Proof. induction p as [|a p IH]; [destruct s; reflexivity | exact IH]. Qed.

Lemma substr_short s : forall n, String.length s <= n -> Js.substr n s = "".
Proof.
  induction s as [|a s IH]; intros n H; destruct n as [|n];
    try reflexivity; simpl in H; [lia|].
  apply IH. lia.
Qed.

(** The first segment of a split has no separator in it, and the text
    is either that segment or the segment, a separator and the text
    the other segments come from. *)
Lemma split_head sep s :
  exists a tl,
    Js.split sep s = a :: tl
    /\ free_of sep a = true
    /\ ((tl = [] /\ s = a)
        \/ exists rest, s = a ++ String sep rest /\ tl = Js.split sep rest).
Proof.
  induction s as [|c s IH].
  - exists "", []. repeat split. left. split; reflexivity.
  - simpl. destruct (Ascii.eqb_spec c sep) as [->|Hne].
    + exists "", (Js.split sep s). repeat split.
      right. exists s. split; reflexivity.
    + destruct IH as (a & tl & Hs & Hfree & Hshape). rewrite Hs.
      exists (String c a), tl. split; [reflexivity|]. split.
      * simpl. rewrite Hfree.
        destruct (Ascii.eqb_spec c sep); [contradiction | reflexivity].
      * destruct Hshape as [[-> ->]|[rest [-> ->]]].
        -- left. split; reflexivity.
        -- right. exists rest. split; reflexivity.
Qed.

Lemma split_segment sep a rest :
  free_of sep a = true ->
  Js.split sep (a ++ String sep rest) = a :: Js.split sep rest.
Proof.
  induction a as [|c a IH]; intros H; simpl in *.
  - rewrite Ascii.eqb_refl. reflexivity.
  - apply andb_true_iff in H. destruct H as [Hc Ha].
    apply negb_true_iff in Hc. rewrite Hc, (IH Ha). reflexivity.
Qed.

Lemma split_free sep a : free_of sep a = true -> Js.split sep a = [a].
Proof.
  induction a as [|c a IH]; intros H; simpl in *; [reflexivity|].
  apply andb_true_iff in H. destruct H as [Hc Ha].
  apply negb_true_iff in Hc. rewrite Hc, (IH Ha). reflexivity.
Qed.

Lemma free_of_app sep a b :
  free_of sep (a ++ b) = (free_of sep a && free_of sep b)%bool.
Proof.
  induction a as [|c a IH]; simpl; [reflexivity|].
  rewrite IH, andb_assoc. reflexivity.
Qed.

(** [indexOf] finds the needle exactly when it occurs. *)
Lemma indexOf_from_found needle s : forall pos,
  Js.indexOf_from pos needle s <> (-1)%Z <-> occurs_in needle s.
Proof.
  induction s as [|c s IH]; intros pos; cbn [Js.indexOf_from].
  - destruct (prefix needle "") eqn:E.
    + split; [|lia]. intros _. apply prefix_app in E.
      destruct E as [post E]. exists "", post. exact E.
    + split; [congruence|]. intros (pre & post & H).
      destruct pre as [|x pre]; [|discriminate H].
      assert (prefix needle "" = true) as E'
        by (apply prefix_app; exists post; exact H).
      congruence.
  - destruct (prefix needle (String c s)) eqn:E.
    + split; [|lia]. intros _. apply prefix_app in E.
      destruct E as [post E]. exists "", post. exact E.
    + rewrite IH. split; intros (pre & post & H).
      * exists (String c pre), post. simpl. rewrite H. reflexivity.
      * destruct pre as [|x pre].
        -- assert (prefix needle (String c s) = true) as E'
             by (apply prefix_app; exists post; exact H).
           congruence.
        -- injection H as _ H. exists pre, post. exact H.
Qed.

End TextFacts.

(** ** The protocol handler, beyond the examples *)

Lemma substr_scheme p s : String.length p = 11 -> Js.substr 11 (p ++ s) = s.
Proof. intros H. rewrite <- H. apply substr_app. Qed.

(** X1: for every operation and resource id without a slash, and
    whatever eleven characters stand in front, the URL
    [<11 characters>drive/<op>/<id>] is decoded to the target
    [/request/drive/<op>/<id>]: the handler logs, suppresses the
    default handling and opens exactly that path. *)
Theorem open_url_drive_round_trip (p op id : string) (w : World) :
  String.length p = 11 ->
  free_of "/" op = true ->
  free_of "/" id = true ->
  _registerProtocols_open_url (p ++ "drive/" ++ op ++ "/" ++ id) w =
    mkRun (Normal tt) w
      [LogInfo [VStr "arc-file protocol handles ";
                VStr (p ++ "drive/" ++ op ++ "/" ++ id)];
       PreventDefault;
       WmOpen (Some ("/request/drive/" ++ op ++ "/" ++ id))].
Proof.
  intros Hp Hop Hid. rewrite open_url_run. cbv zeta.
  rewrite (substr_scheme p _ Hp).
  change ("drive/" ++ op ++ "/" ++ id)
    with ("drive" ++ String "/" (op ++ String "/" id)).
  rewrite (split_segment "/" "drive") by reflexivity.
  rewrite (split_segment "/" op) by exact Hop.
  rewrite (split_free "/" id) by exact Hid.
  reflexivity.
Qed.

(** A file id as the Drive menu hands it over. *)
Lemma open_url_create_file :
  _registerProtocols_open_url "arc-file://drive/create/0B7-xYz_9" plain_world
  = mkRun (Normal tt) plain_world
      [LogInfo [VStr "arc-file protocol handles ";
                VStr "arc-file://drive/create/0B7-xYz_9"];
       PreventDefault;
       WmOpen (Some "/request/drive/create/0B7-xYz_9")].
Proof.
  exact (open_url_drive_round_trip "arc-file://" "create" "0B7-xYz_9"
           plain_world eq_refl eq_refl eq_refl).
Defined.

(** X2: what follows a third slash is dropped: a drive URL with more
    than three segments opens the target built from the operation and
    the segment after it, and nothing of the rest reaches the window
    manager. *)
Theorem open_url_extra_segments_dropped (p op id rest : string) (w : World) :
  String.length p = 11 ->
  free_of "/" op = true ->
  free_of "/" id = true ->
  filter is_WmOpen
    (calls (_registerProtocols_open_url
              (p ++ "drive/" ++ op ++ "/" ++ id ++ "/" ++ rest) w))
  = [WmOpen (Some ("/request/drive/" ++ op ++ "/" ++ id))].
Proof.
  intros Hp Hop Hid. rewrite open_url_run. cbv zeta.
  rewrite (substr_scheme p _ Hp).
  change ("drive/" ++ op ++ "/" ++ id ++ "/" ++ rest)
    with ("drive" ++ String "/" (op ++ String "/" (id ++ String "/" rest))).
  rewrite (split_segment "/" "drive") by reflexivity.
  rewrite (split_segment "/" op) by exact Hop.
  rewrite (split_segment "/" id) by exact Hid.
  reflexivity.
Qed.

Lemma open_url_query_after_id :
  filter is_WmOpen
    (calls (_registerProtocols_open_url
              "arc-file://drive/open/abc123/extra/part" plain_world))
  = [WmOpen (Some "/request/drive/open/abc123")].
Proof.
  exact (open_url_extra_segments_dropped "arc-file://" "open" "abc123"
           "extra/part" plain_world eq_refl eq_refl eq_refl).
Defined.

(** The first segment is [drive] exactly for the text [drive] and the
    texts that begin with [drive/]. *)
Lemma first_segment_drive rest :
  Js.strict_eq (Js.item (Js.split "/" rest) 0) "drive" = true
  <-> (rest = "drive" \/ prefix "drive/" rest = true).
Proof.
  destruct (split_head "/" rest) as (a & tl & Hs & Hfree & Hshape).
  rewrite Hs. simpl. rewrite String.eqb_eq. split.
  - intros ->. destruct Hshape as [[_ ->]|[r [-> _]]].
    + left. reflexivity.
    + right. apply prefix_app. exists r. reflexivity.
  - intros [H|H].
    + destruct Hshape as [[_ Ha]|[r [Hr _]]]; [congruence|].
      rewrite Hr in H.
      assert (Hno : free_of "/" (a ++ String "/" r) = true)
        by (rewrite H; reflexivity).
      rewrite free_of_app in Hno. cbn [free_of] in Hno.
      rewrite Ascii.eqb_refl, andb_false_r in Hno. discriminate.
    + apply prefix_app in H. destruct H as [post H].
      change ("drive/" ++ post) with ("drive" ++ String "/" post) in H.
      rewrite H, (split_segment "/" "drive") in Hs by reflexivity.
      congruence.
Qed.

(** X3: the handler navigates exactly when the text after the first
    eleven characters is [drive] or begins with [drive/]; in every
    other case, a URL of eleven characters or fewer included, it only
    logs and suppresses the default handling. *)
Theorem open_url_navigates_iff (url : string) (w : World) :
  let rest := Js.substr 11 url in
  (rest = "drive" \/ prefix "drive/" rest = true ->
     times is_WmOpen (calls (_registerProtocols_open_url url w)) = 1)
  /\ (rest <> "drive" -> prefix "drive/" rest = false ->
      _registerProtocols_open_url url w =
        mkRun (Normal tt) w
          [LogInfo [VStr "arc-file protocol handles "; VStr url];
           PreventDefault])
  /\ (String.length url <= 11 ->
      _registerProtocols_open_url url w =
        mkRun (Normal tt) w
          [LogInfo [VStr "arc-file protocol handles "; VStr url];
           PreventDefault]).
Proof.
  intros rest. subst rest.
  pose proof (first_segment_drive (Js.substr 11 url)) as Hkind.
  split; [|split].
  - intros H. apply Hkind in H. rewrite open_url_run. cbv zeta.
    rewrite H. reflexivity.
  - intros H1 H2. rewrite open_url_run. cbv zeta.
    destruct (Js.strict_eq _ "drive"); [|reflexivity].
    destruct (proj1 Hkind eq_refl); congruence.
  - intros Hlen. rewrite open_url_run. cbv zeta.
    rewrite (substr_short url 11 Hlen). reflexivity.
Qed.

Lemma open_url_navigation_examples :
  times is_WmOpen
    (calls (_registerProtocols_open_url "arc-file://drive" plain_world)) = 1
  /\ _registerProtocols_open_url "arc-file://driveway/open/x" plain_world
     = mkRun (Normal tt) plain_world
         [LogInfo [VStr "arc-file protocol handles ";
                   VStr "arc-file://driveway/open/x"];
          PreventDefault]
  /\ _registerProtocols_open_url "arc-file:" plain_world
     = mkRun (Normal tt) plain_world
         [LogInfo [VStr "arc-file protocol handles "; VStr "arc-file:"];
          PreventDefault].
Proof.
  split; [|split].
  - apply (proj1 (open_url_navigates_iff "arc-file://drive" plain_world)).
    left. reflexivity.
  - apply (proj1 (proj2 (open_url_navigates_iff
                           "arc-file://driveway/open/x" plain_world)));
      [vm_compute; discriminate | reflexivity].
  - apply (proj2 (proj2 (open_url_navigates_iff "arc-file:" plain_world))).
    vm_compute. lia.
Defined.

(** X4: the handler never throws; it calls the window manager at most
    once, and only with a path that begins with [/request/drive/]:
    no URL makes it open a window without a target or a target
    outside the drive requests. *)
Theorem open_url_only_drive_paths (url : string) (w : World) :
  outcome (_registerProtocols_open_url url w) = Normal tt
  /\ times is_WmOpen (calls (_registerProtocols_open_url url w)) <= 1
  /\ forall path,
       In (WmOpen path) (calls (_registerProtocols_open_url url w)) ->
       exists rest, path = Some ("/request/drive/" ++ rest).
Proof.
  rewrite open_url_run. cbv zeta. cbn [outcome final calls].
  split; [reflexivity|].
  destruct (Js.strict_eq _ "drive"); unfold times; simpl.
  - split; [lia|]. intros path [H|[H|[H|[]]]]; try discriminate H.
    injection H as <-. eexists. reflexivity.
  - split; [lia|]. intros path [H|[H|[]]]; discriminate H.
Qed.

(** ** The ready sequence and the window life cycle *)

(** X5: the [.catch] callback reads [cause.message], so a rejection
    with [undefined] or [null] makes the callback itself throw: the
    handler's promise is rejected with that [TypeError] and nothing is
    logged, no listener is started and no window is opened.  With any
    other cause, and when preparation succeeds, the handler completes;
    a cause that is a plain string is logged with [undefined] as its
    message. *)
Theorem ready_completes_unless_nullish (w : World) :
  (rejects_nullish w = true ->
     _readyHandler w =
       mkRun (Throw (VErr "TypeError")) w
         [New "AppDefaults"; PrepareEnvironment])
  /\ (rejects_nullish w = false <-> outcome (_readyHandler w) = Normal tt)
  /\ (forall s, prepared w = Throw (VStr s) ->
        _readyHandler w =
          mkRun (Normal tt) w
            ([New "AppDefaults"; PrepareEnvironment;
              LogError [VStr "Unable to prepare the environment.";
                        VUndefined];
              LogError [VStr s]] ++ ready_steps (isDebug w))).
Proof.
  unfold rejects_nullish. rewrite ready_run. split; [|split].
  - intros H. destruct (prepared w) as [[]|[| |s|m]];
      cbn [nullish] in H; try discriminate H; reflexivity.
  - destruct (prepared w) as [[]|[| |s|m]]; cbn [nullish outcome];
      split; intros H; try reflexivity; discriminate H.
  - intros s H. rewrite H. reflexivity.
Qed.

Lemma ready_rejected_with_nothing :
  _readyHandler
    (mkWorld ["electron"; "."] "linux" None (Throw VUndefined) false [] false)
  = mkRun (Throw (VErr "TypeError"))
      (mkWorld ["electron"; "."] "linux" None (Throw VUndefined) false []
               false)
      [New "AppDefaults"; PrepareEnvironment].
Proof.
  exact (proj1 (ready_completes_unless_nullish
                  (mkWorld ["electron"; "."] "linux" None (Throw VUndefined)
                           false [] false)) eq_refl).
Defined.

(** X6: [isDebug()] holds exactly when some startup argument has
    [--inspect] somewhere in it: the flag with a port or the
    [--inspect-brk] form count, and so does an argument that merely
    contains the text. *)
Theorem isDebug_iff_argument_mentions_inspect (w : World) :
  isDebug w = true
  <-> exists i, In i (argv w) /\ occurs_in "--inspect" i.
Proof.
  rewrite isDebug_scan, existsb_exists.
  split; intros [i [Hin H]]; exists i; (split; [exact Hin|]).
  - unfold mentions_inspect in H. apply negb_true_iff, Z.eqb_neq in H.
    apply (indexOf_from_found "--inspect" i 0). exact H.
  - unfold mentions_inspect. apply negb_true_iff, Z.eqb_neq.
    apply (indexOf_from_found "--inspect" i 0). exact H.
Qed.

Lemma all_closed_run w :
  _allClosedHandler w =
    mkRun (Normal tt) w (if platform w =? "darwin" then [] else [AppQuit]).
Proof.
  unfold _allClosedHandler, bind, get, call, ret. cbn [outcome final calls].
  destruct (platform w =? "darwin"); reflexivity.
Qed.

Lemma activate_run w :
  _activateHandler w =
    mkRun (Normal tt) w (if hasWindow w then [] else [WmOpen None]).
Proof.
  unfold _activateHandler, bind, get, call, ret. cbn [outcome final calls].
  destruct (hasWindow w); reflexivity.
Qed.

(** X7: when the last window closes the application quits, once,
    unless the platform is [darwin]; an [activate] opens one window
    when the window manager has none and does nothing when it has
    one.  Neither handler throws or changes the state. *)
Theorem window_life_cycle (w : World) :
  _allClosedHandler w =
    mkRun (Normal tt) w (if platform w =? "darwin" then [] else [AppQuit])
  /\ _activateHandler w =
       mkRun (Normal tt) w (if hasWindow w then [] else [WmOpen None]).
Proof.
  split; [apply all_closed_run | apply activate_run].
Qed.

(** ** The menu router, row by row *)

(** Every run of [_handleApplicationAction] is one of the rows of the
    [switch], chosen by exact equality, or the fall-through. *)
Lemma application_action_cases action win w :
  let r := _handleApplicationAction action win w in
  (action = "quit" /\ r = mkRun (Normal tt) w [AppQuit])
  \/ (In action forwarded_commands
      /\ r = mkRun (Normal tt) w
               [WebContentsSend (win_id win) "command" action])
  \/ (action = "new-window" /\ r = mkRun (Normal tt) w [WmOpen None])
  \/ (In action help_commands
      /\ r = mkRun (Normal tt) w [HelpWith action])
  \/ (action = "task-manager"
      /\ r = mkRun (Normal tt) w [WmOpenTaskManager])
  \/ (action = "find" /\ r = find_action win w)
  \/ (~ In action application_action_table
      /\ r = mkRun (Normal tt) w []).
Proof.
  cbv zeta.
  change (_handleApplicationAction action win)
    with (if Js.case_of ["quit"] action then call AppQuit
          else if Js.case_of forwarded_commands action
               then webContents_send win "command" action
          else if Js.case_of ["new-window"] action then call (WmOpen None)
          else if Js.case_of help_commands action
               then call (HelpWith action)
          else if Js.case_of ["task-manager"] action
               then call WmOpenTaskManager
          else if Js.case_of ["find"] action then find_action win
          else ret tt).
  destruct (Js.case_of ["quit"] action) eqn:E1.
  { left. apply case_of_In in E1. destruct E1 as [<-|[]].
    split; reflexivity. }
  destruct (Js.case_of forwarded_commands action) eqn:E2.
  { right; left. apply case_of_In in E2. split; [exact E2 | reflexivity]. }
  destruct (Js.case_of ["new-window"] action) eqn:E3.
  { do 2 right; left. apply case_of_In in E3. destruct E3 as [<-|[]].
    split; reflexivity. }
  destruct (Js.case_of help_commands action) eqn:E4.
  { do 3 right; left. apply case_of_In in E4.
    split; [exact E4 | reflexivity]. }
  destruct (Js.case_of ["task-manager"] action) eqn:E5.
  { do 4 right; left. apply case_of_In in E5. destruct E5 as [<-|[]].
    split; reflexivity. }
  destruct (Js.case_of ["find"] action) eqn:E6.
  { do 5 right; left. apply case_of_In in E6. destruct E6 as [<-|[]].
    split; reflexivity. }
  do 6 right. split; [|reflexivity].
  unfold application_action_table. rewrite !in_app_iff.
  intros [H|[H|[H|H]]].
  - apply case_of_In in H. congruence.
  - destruct H as [<-|[<-|[]]]; discriminate.
  - apply case_of_In in H. congruence.
  - destruct H as [<-|[<-|[]]]; discriminate.
Qed.

(** X8: a well-formed identifier is routed by what follows its dash:
    [request-<x>] sends the window one [request-action] event whose
    payload is exactly [<x>], whatever [<x>] is, and
    [application-<x>] does what the application table says for
    exactly [<x>]. *)
Theorem menu_routes_by_suffix (x : string) (win : BrowserWindow) (w : World) :
  _menuHandler ("request-" ++ x) win w =
    mkRun (Normal tt) w [WebContentsSend (win_id win) "request-action" x]
  /\ _menuHandler ("application-" ++ x) win w =
       _handleApplicationAction x win w.
Proof.
  rewrite !menu_dispatch. split; reflexivity.
Qed.

(** X9: the rows that go to a collaborator and not to the window:
    [quit] quits, [new-window] asks the window manager for a window,
    [task-manager] for its task manager, and each of the seven help
    commands is handed to the help manager under its own name.  In
    each case that is the only call, and the state is left alone. *)
Theorem collaborator_rows (win : BrowserWindow) (w : World) :
  _menuHandler "application-quit" win w = mkRun (Normal tt) w [AppQuit]
  /\ _menuHandler "application-new-window" win w
     = mkRun (Normal tt) w [WmOpen None]
  /\ _menuHandler "application-task-manager" win w
     = mkRun (Normal tt) w [WmOpenTaskManager]
  /\ forall cmd, In cmd help_commands ->
       _menuHandler ("application-" ++ cmd) win w
       = mkRun (Normal tt) w [HelpWith cmd].
Proof.
  repeat apply conj; try reflexivity.
  intros cmd H. unfold help_commands in H. simpl in H.
  repeat (destruct H as [<-|H]; [reflexivity|]).
  contradiction.
Qed.

Lemma help_with_faq :
  _menuHandler "application-open-faq" app_window plain_world
  = mkRun (Normal tt) plain_world [HelpWith "open-faq"].
Proof.
  apply (proj2 (proj2 (proj2 (collaborator_rows app_window plain_world)))
           "open-faq").
  unfold help_commands. simpl. tauto.
Defined.

(** The router's runs: an application row, a forwarded request, or
    nothing. *)
Lemma menu_cases action win w :
  (prefix "application" action = true
   /\ _menuHandler action win w
      = _handleApplicationAction (Js.substr 12 action) win w)
  \/ (prefix "application" action = false
      /\ _menuHandler action win w
         = mkRun (Normal tt) w
             [WebContentsSend (win_id win) "request-action"
                (Js.substr 8 action)])
  \/ (prefix "application" action = false
      /\ _menuHandler action win w = mkRun (Normal tt) w []).
Proof.
  rewrite menu_dispatch.
  destruct (prefix "application" action); [left; split; reflexivity|].
  destruct (prefix "request" action);
    [right; left | right; right]; split; reflexivity.
Qed.

(** The calls of [find] are made on the window it was given and on
    that window's service; it never quits, never throws, and changes
    nothing but the registry. *)
Lemma find_footprint win w :
  outcome (find_action win w) = Normal tt
  /\ same_but_services w (final (find_action win w))
  /\ ~ In AppQuit (calls (find_action win w))
  /\ forall e id, In e (calls (find_action win w)) ->
                  window_of e = Some id -> id = win_id win.
Proof.
  rewrite find_run. cbv zeta. unfold same_but_services.
  destruct (shows_search_bar win);
    [|destruct (lookup_service _ 0 _) as [h|];
      [destruct (is_opened h _)|]];
    cbn [outcome final calls];
    (split; [reflexivity|]); (split; [destruct w; reflexivity|]);
    (split; [simpl; intuition discriminate|]);
    intros e id Hin Hw; simpl in Hin;
    repeat (destruct Hin as [<-|Hin]; [simpl in Hw; congruence|]);
    contradiction.
Qed.

Lemma menu_quit action win w :
  In AppQuit (calls (_menuHandler action win w))
  <-> (prefix "application" action = true /\ Js.substr 12 action = "quit").
Proof.
  split.
  - intros Hq.
    destruct (menu_cases action win w) as [[Hp E]|[[Hp E]|[Hp E]]];
      rewrite E in Hq.
    + split; [exact Hp|].
      destruct (application_action_cases (Js.substr 12 action) win w)
        as [[Ha _]|[[_ E']|[[_ E']|[[_ E']|[[_ E']|[[_ E']|[_ E']]]]]]];
        [exact Ha| | | | | |]; cbv zeta in E'; rewrite E' in Hq;
        try (simpl in Hq; intuition discriminate).
      exfalso. exact (proj1 (proj2 (proj2 (find_footprint win w))) Hq).
    + simpl in Hq. intuition discriminate.
    + simpl in Hq. contradiction.
  - intros [Hp Ha]. rewrite menu_dispatch, Hp, Ha. simpl. tauto.
Qed.


(** X10: every call the router makes on a window or on a window's
    search service is made on the window the action came with. *)
Theorem router_stays_on_source_window
  (action : string) (win : BrowserWindow) (w : World) (e : Event) (id : nat) :
  In e (calls (_menuHandler action win w)) ->
  window_of e = Some id ->
  id = win_id win.
Proof.
  intros Hin Hw.
  destruct (menu_cases action win w) as [[Hp E]|[[Hp E]|[Hp E]]];
    rewrite E in Hin.
  - destruct (application_action_cases (Js.substr 12 action) win w)
      as [[_ E']|[[_ E']|[[_ E']|[[_ E']|[[_ E']|[[_ E']|[_ E']]]]]]];
      cbv zeta in E'; rewrite E' in Hin;
      try (simpl in Hin; destruct Hin as [<-|[]]; simpl in Hw; congruence);
      try (simpl in Hin; contradiction).
    exact (proj2 (proj2 (proj2 (find_footprint win w))) e id Hin Hw).
  - simpl in Hin. destruct Hin as [<-|[]]. simpl in Hw. congruence.
  - simpl in Hin. contradiction.
Qed.

Lemma router_event_for_window_one :
  1 = win_id app_window.
Proof.
  apply (router_stays_on_source_window "application-find" app_window
           plain_world (SearchNew 1) 1).
  - vm_compute. tauto.
  - reflexivity.
Defined.


(** ** The find action and the registry *)

Lemma mark_opened_length l : forall h,
  List.length (mark_opened h l) = List.length l.
Proof.
  induction l as [|s l IH]; intros h; [destruct h; reflexivity|].
  destruct h as [|h]; simpl; [reflexivity | rewrite IH; reflexivity].
Qed.

(** [mark_opened] keeps every instance where it is and on its window,
    and closes none. *)
Lemma mark_opened_nth l : forall h i s,
  nth_error l i = Some s ->
  exists s',
    nth_error (mark_opened h l) i = Some s'
    /\ srv_win s' = srv_win s
    /\ (srv_opened s = true -> srv_opened s' = true).
Proof.
  induction l as [|x l IH]; intros h i s H; [destruct i; discriminate|].
  destruct h as [|h]; destruct i as [|i]; simpl in *.
  - injection H as <-. eexists. repeat split.
  - exists s. repeat split; [exact H | tauto].
  - exists s. repeat split; [exact H | tauto].
  - apply IH. exact H.
Qed.

Lemma services_of_mark_opened k l : forall h,
  (forall s, nth_error l h = Some s -> srv_win s <> k) ->
  services_of k (mark_opened h l) = services_of k l.
Proof.
  unfold services_of.
  induction l as [|x l IH]; intros h H; [destruct h; reflexivity|].
  destruct h as [|h]; simpl.
  - specialize (H x eq_refl). apply Nat.eqb_neq in H. rewrite H. reflexivity.
  - rewrite (IH h) by exact H. reflexivity.
Qed.

(** X11: after [find] on a window that does not show the search UI,
    that window has a search service and the service is open,
    whatever the registry held before. *)
Theorem find_leaves_service_open (win : BrowserWindow) (w : World) :
  shows_search_bar win = false ->
  exists h,
    lookup_service (win_id win) 0 (services (final (find_action win w)))
    = Some h
    /\ is_opened h (services (final (find_action win w))) = true.
Proof.
  intros Hurl. rewrite find_run. cbv zeta. rewrite Hurl.
  destruct (lookup_service (win_id win) 0 (services w)) as [h|] eqn:Hl.
  - exists h. destruct (is_opened h (services w)) eqn:Ho;
      cbn [final services set_services].
    + split; assumption.
    + rewrite lookup_service_mark_opened. split; [exact Hl|].
      destruct (lookup_service_some _ _ _ _ Hl) as [_ [s [Hn _]]].
      rewrite Nat.sub_0_r in Hn.
      apply is_opened_mark_opened. apply nth_error_Some. congruence.
  - exists (List.length (services w)). cbn [final services set_services].
    split; [|apply is_opened_last].
    apply (lookup_service_app_new _ true _ 0 Hl).
Qed.

Lemma find_opens_for_closed_service :
  exists h,
    lookup_service 1 0
      (services (final (find_action app_window
                          (set_services [mkService 7 true; mkService 1 false]
                                        plain_world))))
    = Some h
    /\ is_opened h
         (services (final (find_action app_window
                             (set_services
                                [mkService 7 true; mkService 1 false]
                                plain_world))))
       = true.
Proof.
  apply (find_leaves_service_open app_window
           (set_services [mkService 7 true; mkService 1 false] plain_world)).
  reflexivity.
Defined.

(** X12: [find] removes no service and closes none: every instance
    stays under its handle and on its window, an open one stays open,
    the registry grows by one instance at most, and the services of
    the other windows are exactly what they were. *)
Theorem find_keeps_what_is_there (win : BrowserWindow) (w : World) :
  let l := services w in
  let l' := services (final (find_action win w)) in
  (forall i s, nth_error l i = Some s ->
     exists s', nth_error l' i = Some s'
                /\ srv_win s' = srv_win s
                /\ (srv_opened s = true -> srv_opened s' = true))
  /\ (forall k, k <> win_id win -> services_of k l' = services_of k l)
  /\ List.length l <= List.length l' <= S (List.length l).
Proof.
  cbv zeta. rewrite find_run. cbv zeta.
  assert (Hsame : forall l : list Service,
    (forall i s, nth_error l i = Some s ->
       exists s', nth_error l i = Some s' /\ srv_win s' = srv_win s
                  /\ (srv_opened s = true -> srv_opened s' = true))).
  { intros l i s H. exists s. repeat split; [exact H | tauto]. }
  destruct (shows_search_bar win);
    [cbn [final]; split; [apply Hsame|]; split; [reflexivity | lia]|].
  destruct (lookup_service (win_id win) 0 (services w)) as [h|] eqn:Hl.
  - destruct (is_opened h (services w));
      cbn [final services set_services];
      [split; [apply Hsame|]; split; [reflexivity | lia]|].
    split; [intros i s H; apply mark_opened_nth; exact H|].
    split; [|rewrite mark_opened_length; lia].
    intros k Hk. apply services_of_mark_opened.
    destruct (lookup_service_some _ _ _ _ Hl) as [_ [s [Hn Hw]]].
    rewrite Nat.sub_0_r in Hn. intros s' Hs'. congruence.
  - cbn [final services set_services]. split; [|split].
    + intros i s H. exists s. split; [|tauto].
      rewrite nth_error_app1; [exact H|].
      apply nth_error_Some. congruence.
    + intros k Hk. unfold services_of. rewrite filter_app. simpl.
      destruct (Nat.eqb_spec (win_id win) k); [congruence|].
      apply app_nil_r.
    + rewrite length_app. simpl. lia.
Qed.

Lemma find_keeps_other_window :
  services_of 7
    (services (final (find_action app_window
                        (set_services [mkService 7 true; mkService 1 false]
                                      plain_world))))
  = [mkService 7 true].
Proof.
  apply (proj1 (proj2 (find_keeps_what_is_there app_window
                         (set_services [mkService 7 true; mkService 1 false]
                                       plain_world))) 7).
  vm_compute. discriminate.
Defined.

(** X13: a second [find] right after a first, on a window that does
    not show the search UI, changes nothing: whatever the registry
    held at the start, the second call finds the window's service
    open, focuses it, and leaves the state as the first call left
    it. *)
Theorem find_is_idempotent (win : BrowserWindow) (w : World) :
  shows_search_bar win = false ->
  let r1 := find_action win w in
  let r2 := find_action win (final r1) in
  final r2 = final r1
  /\ exists h,
       calls r2 = [WebContentsGetURL (win_id win);
                   SearchGetService (win_id win);
                   SearchIsOpened h; SearchFocus h].
Proof.
  intros Hurl r1 r2. destruct (find_twice win w Hurl) as (Hf & _ & Hc).
  split; [exact Hf | exact Hc].
Qed.

Lemma find_twice_with_closed_service :
  let w := set_services [mkService 7 true; mkService 1 false] plain_world in
  let r1 := find_action app_window w in
  let r2 := find_action app_window (final r1) in
  final r2 = final r1
  /\ exists h,
       calls r2 = [WebContentsGetURL 1; SearchGetService 1;
                   SearchIsOpened h; SearchFocus h].
Proof.
  apply (find_is_idempotent app_window
           (set_services [mkService 7 true; mkService 1 false] plain_world)).
  reflexivity.
Defined.

(** ** The listeners together *)

(** X14: a listener calls [app.quit()] exactly in two cases: the last
    window closed on a platform other than [darwin], and the menu
    action whose text begins with [application] and reads [quit] from
    its thirteenth character on.  No URL, no activation, no ready
    sequence and no other menu action ends the application. *)
Theorem listeners_quit_exactly_when_asked (e : AppEvent) (w : World) :
  In AppQuit (calls (handle e w)) <-> asks_to_quit (platform w) e = true.
Proof.
  destruct e as [url| | | |action win|sender data];
    cbn [handle asks_to_quit].
  - rewrite open_url_run. cbv zeta. cbn [calls].
    destruct (Js.strict_eq _ "drive"); simpl; intuition discriminate.
  - rewrite ready_run.
    destruct (prepared w) as [[]|[| |s|m]]; destruct (isDebug w);
      cbn [calls]; simpl; intuition discriminate.
  - rewrite all_closed_run. cbn [calls].
    destruct (platform w =? "darwin"); simpl; intuition discriminate.
  - rewrite activate_run. cbn [calls].
    destruct (hasWindow w); simpl; intuition discriminate.
  - rewrite menu_quit, andb_true_iff, String.eqb_eq. reflexivity.
  - simpl. intuition discriminate.
Qed.

(** ** Loading the module *)

(** X15: loading the module constructs and registers, and starts
    nothing: the listeners are registered in the order [open-url],
    [menu-action], [ready], [window-all-closed], [activate],
    [open-theme-editor]; no [listen()], no window, no menu build and
    no quit happens before an event arrives; the test interface is
    called exactly when [NODE_ENV] is [test]. *)
Theorem load_registers_and_waits (w : World) :
  outcome (main w) = Normal tt
  /\ filter is_registration (calls (main w))
     = [AppOn "open-url"; MenuOn "menu-action"; AppOn "ready";
        AppOn "window-all-closed"; AppOn "activate";
        IpcMainOn "open-theme-editor"]
  /\ filter is_startup_call (calls (main w)) = []
  /\ (In TestInterface (calls (main w)) <-> node_env w = Some "test").
Proof.
  rewrite main_run. cbn [outcome calls].
  rewrite <- (strict_eq_true (node_env w) "test").
  destruct (Js.strict_eq (node_env w) "test");
    (split; [reflexivity|]); (split; [reflexivity|]);
    (split; [reflexivity|]); simpl; intuition discriminate.
Qed.
